(** * Side-by-side diff (sdiff) of kov/diffutils: a shallow embedding

    This development embeds [src/side_diff.rs] (the line indexer, the row
    reconciler [diff] and the row formatter [dispatch_to_output] /
    [push_output]) and the control flow of [src/sdiff.rs] ([main],
    [parse_params], [read_file_contents]).  Byte buffers ([Vec<u8>],
    [&[u8]]) are [list byte]. *)

From Stdlib Require Import List Bool Arith ZArith Lia.
From Stdlib Require Strings.String.
Import String.StringSyntax.
From Stdlib Require Import Strings.Byte.
Import ListNotations.

Open Scope list_scope.
Open Scope string_scope.

(** ** Bytes *)

(** [type Buf = Vec<u8>]. *)
Definition Buf := list byte.

Definition b_nl : byte := x0a.     (* b'\n' *)
Definition b_cr : byte := x0d.     (* b'\r' *)
Definition b_space : byte := x20.  (* b' ' *)

(** [s.as_bytes()] for a string literal. *)
Definition bs (s : String.string) : Buf := String.list_byte_of_string s.

(** Byte-slice equality ([==] on [&[u8]]). *)
Fixpoint bytes_eqb (a b : Buf) : bool :=
  match a, b with
  | [], [] => true
  | x :: a', y :: b' => Byte.eqb x y && bytes_eqb a' b'
  | _, _ => false
  end.

(** [content == vec![]] *)
Definition is_empty (a : Buf) : bool :=
  match a with [] => true | _ => false end.

(** ** [struct Line] and [struct Diff] *)

(** [#[derive(Debug, PartialEq)] struct Line { line_ndx: usize, content: &[u8] }] *)
Record Line := mkLine { line_ndx : nat; content : Buf }.

(** The derived [PartialEq] for [Line]: field-wise equality. *)
Definition line_eqb (l r : Line) : bool :=
  Nat.eqb (line_ndx l) (line_ndx r) && bytes_eqb (content l) (content r).

(** [struct Diff { left_ln: &Line, right_ln: &Line }] *)
Record Diff := mkDiff { left_ln : Line; right_ln : Line }.

(** ** Missing module [crate::utils] *)

(** Modelled from the spec: [crate::utils::limited_string], which is not in
    this repository's sources.  The spec: a side's content is cut to its
    first [limit] bytes (byte-indexed); shorter content is kept whole. *)
Definition limited_string (orig : Buf) (limit : nat) : Buf :=
  firstn limit orig.

(** ** Row formatter *)

Section Formatter.

(** [cfg!(target_os = "windows")], fixed at compile time. *)
Variable target_windows : bool.

Definition eol : Buf :=
  if target_windows then [b_cr; b_nl] else [b_nl].

(** [push_output]: appends
    [{left_line}{tab}{space_char}{symbol}{space_char}{right_line}{EOL}].
    The [isize] subtraction and [.max(0)] are written in [Z]. *)
Definition push_output (output left right symbol : Buf) (tab_size : nat) : Buf :=
  let tab_size :=
    Z.to_nat (Z.max (Z.of_nat tab_size - Z.of_nat (length left)) 0) in
  output ++ left ++ repeat b_space (tab_size + 1) ++ symbol ++ [b_space]
         ++ right ++ eol.

(** [dispatch_to_output]: the state is the output buffer and the
    [already_dispatched] vector, both threaded explicitly. *)
Definition dispatch_to_output (output : Buf) (to_dispatch_val : Diff)
    (already_dispatched : list nat) : Buf * list nat :=
  let l := left_ln to_dispatch_val in
  let r := right_ln to_dispatch_val in
  if existsb (Nat.eqb (line_ndx l)) already_dispatched then
    (output, already_dispatched)
  else
    let tab_spaces := 61 in
    let limiter := tab_spaces in
    let already_dispatched := already_dispatched ++ [line_ndx l] in
    if negb (is_empty (content r)) && is_empty (content l) then
      (push_output output (bs "") (limited_string (content r) limiter)
         (bs ">") tab_spaces, already_dispatched)
    else if negb (is_empty (content l)) && is_empty (content r) then
      (push_output output (limited_string (content l) limiter) (bs "")
         (bs "<") tab_spaces, already_dispatched)
    else
      let symbol : String.string := if bytes_eqb (content l) (content r) then " " else "|" in
      (push_output output (limited_string (content l) limiter)
         (limited_string (content r) limiter) (bs symbol) tab_spaces,
       already_dispatched).

End Formatter.

(** ** Line indexer *)

(** [input.split(|&c| c == b'\n')]: the pieces between separators; an
    empty input gives one empty piece, a trailing separator a final empty
    piece. *)
Fixpoint split_newline (input : Buf) : list Buf :=
  match input with
  | [] => [[]]
  | c :: rest =>
      let pieces := split_newline rest in
      if Byte.eqb c b_nl then [] :: pieces
      else match pieces with
           | p :: ps => (c :: p) :: ps
           | [] => [[c]]
           end
  end.

(** [.enumerate().map(|(i, line)| Line::new(i, line))] *)
Fixpoint enumerate_lines (i : nat) (pieces : list Buf) : list Line :=
  match pieces with
  | [] => []
  | p :: ps => mkLine i p :: enumerate_lines (S i) ps
  end.

Definition split_lines (input : Buf) : list Line :=
  enumerate_lines 0 (split_newline input).

(** ** The edit-script collaborator: [diff::Result] *)

Module DiffCrate.

Inductive Result (A : Type) : Type :=
| Left (l : A)
| Right (r : A)
| Both (l r : A).

Arguments Left {A} l.
Arguments Right {A} r.
Arguments Both {A} l r.

(** A model of [diff::slice] (external crate, not part of this
    repository): the common prefix and suffix are emitted as [Both], the
    middle part is aligned through the longest-common-subsequence table
    [lcs::table] and the usual backtrack from the bottom-right corner,
    which pushes entries in reverse and reverses them at the end.  Only
    the witnesses and counterexamples below evaluate it; the theorems hold
    for every edit script. *)
Section Slice.

Context {T : Type} (eq : T -> T -> bool).

Fixpoint leading_equals (left right : list T) : nat :=
  match left, right with
  | x :: left', y :: right' => if eq x y then S (leading_equals left' right') else 0
  | _, _ => 0
  end.

Definition trailing_equals (left right : list T) : nat :=
  leading_equals (rev left) (rev right).

(** [table[i+1][j+1] = if l == r { table[i][j] + 1 }
                      else { max(table[i][j+1], table[i+1][j]) }];
    [prev] is row [i] from column [j], [cur] is [table[i+1][j]]. *)
Fixpoint next_row (x : T) (right : list T) (prev : list nat) (cur : nat) : list nat :=
  match right, prev with
  | y :: right', pj :: ((pj1 :: _) as prev') =>
      let v := if eq x y then pj + 1 else Nat.max pj1 cur in
      v :: next_row x right' prev' v
  | _, _ => []
  end.

Fixpoint table_rows (left right : list T) (prev : list nat) : list (list nat) :=
  match left with
  | [] => []
  | x :: left' =>
      let row := 0 :: next_row x right prev 0 in
      row :: table_rows left' right row
  end.

Definition table (left right : list T) : list (list nat) :=
  let row0 := repeat 0 (length right + 1) in
  row0 :: table_rows left right row0.

Definition table_get (t : list (list nat)) (i j : nat) : nat :=
  nth j (nth i t []) 0.

(** The backtrack loop; [acc] already holds the reversed pushes. *)
Fixpoint backtrack (fuel : nat) (t : list (list nat)) (left right : list T)
    (i j : nat) (acc : list (Result T)) : list (Result T) :=
  match fuel with
  | 0 => acc
  | S fuel' =>
      if (0 <? j) && ((i =? 0) || (table_get t i j =? table_get t i (j - 1))) then
        match nth_error right (j - 1) with
        | Some y => backtrack fuel' t left right i (j - 1) (Right y :: acc)
        | None => acc
        end
      else if (0 <? i) && ((j =? 0) || (table_get t i j =? table_get t (i - 1) j)) then
        match nth_error left (i - 1) with
        | Some x => backtrack fuel' t left right (i - 1) j (Left x :: acc)
        | None => acc
        end
      else if (0 <? i) && (0 <? j) then
        match nth_error left (i - 1), nth_error right (j - 1) with
        | Some x, Some y => backtrack fuel' t left right (i - 1) (j - 1) (Both x y :: acc)
        | _, _ => acc
        end
      else acc
  end.

Definition slice (left right : list T) : list (Result T) :=
  let le := leading_equals left right in
  let te := trailing_equals (skipn le left) (skipn le right) in
  let left_mid := firstn (length left - le - te) (skipn le left) in
  let right_mid := firstn (length right - le - te) (skipn le right) in
  let t := table left_mid right_mid in
  map (fun '(x, y) => Both x y) (combine (firstn le left) (firstn le right))
  ++ backtrack (S (length left_mid + length right_mid)) t left_mid right_mid
       (length left_mid) (length right_mid) []
  ++ map (fun '(x, y) => Both x y)
       (combine (skipn (length left - te) left) (skipn (length right - te) right)).

End Slice.

End DiffCrate.

Import DiffCrate.

(** ** Row reconciler: [pub fn diff] *)

Section Reconciler.

Variable target_windows : bool.

(** The edit-script collaborator [diff::slice], called on the two line
    vectors (whose elements it compares with [line_eqb]). *)
Variable align : list Line -> list Line -> list (Result Line).

(** The body of the [match result] arms: the [Diff] each entry forms. *)
Definition diff_of_result (left_lines right_lines : list Line)
    (result : Result Line) : Diff :=
  match result with
  | Left left_ln =>
      let fake_line := mkLine (line_ndx left_ln) [] in
      match nth_error right_lines (line_ndx left_ln) with
      | None => mkDiff left_ln fake_line
      | Some right_ln => mkDiff left_ln right_ln
      end
  | Right right_ln =>
      let fake_line := mkLine (line_ndx right_ln) [] in
      match nth_error left_lines (line_ndx right_ln) with
      | None => mkDiff fake_line right_ln
      | Some left_ln => mkDiff left_ln right_ln
      end
  | Both line1 line2 => mkDiff line1 line2
  end.

(** The [for result in diff::slice(..)] loop, threading [output] and
    [already_dispatched]. *)
Definition dispatch_all (left_lines right_lines : list Line)
    (results : list (Result Line)) (st : Buf * list nat) : Buf * list nat :=
  fold_left
    (fun st result =>
       dispatch_to_output target_windows (fst st)
         (diff_of_result left_lines right_lines result) (snd st))
    results st.

(** [diff]; [None] is a panic (the [left_lines[0]] / [right_lines[0]]
    index out of bounds).  The [&&] short-circuits: [right_lines[0]] is
    only read when the left first line is empty.  The [debug_assert_eq!]
    has no effect on the result. *)
Definition diff_with (from_file to_file : Buf) : option Buf :=
  let left_lines := split_lines from_file in
  let right_lines := split_lines to_file in
  match nth_error left_lines 0 with
  | None => None
  | Some l0 =>
      let both_empty :=
        if is_empty (content l0) then
          match nth_error right_lines 0 with
          | None => None
          | Some r0 => Some (is_empty (content r0))
          end
        else Some false in
      match both_empty with
      | None => None
      | Some true => Some []
      | Some false =>
          Some (fst (dispatch_all left_lines right_lines
                       (align left_lines right_lines) ([], [])))
      end
  end.

End Reconciler.

(** [diff] with the crate's [slice] over the derived [PartialEq] of [Line]. *)
Definition diff (target_windows : bool) (from_file to_file : Buf) : option Buf :=
  diff_with target_windows (slice line_eqb) from_file to_file.

(** ** [src/sdiff.rs]: the command-line entry point *)

Module Sdiff.

(** [enum ParseErr { InsufficientArgs }] *)
Inductive ParseErr := InsufficientArgs.

(** [struct Params { file1: OsString, file2: OsString }] *)
Record Params := mkParams { file1 : String.string; file2 : String.string }.

(** [Result<Params, ParseErr>] *)
Inductive ParseResult := ParseOk (p : Params) | ParseError (e : ParseErr).

(** [parse_params]: skips the executable name, then takes two arguments. *)
Definition parse_params (opts : list String.string) : ParseResult :=
  match opts with
  | [] => ParseError InsufficientArgs
  | _ :: rest =>
      match rest with
      | [] => ParseError InsufficientArgs
      | arg1 :: rest' =>
          match rest' with
          | [] => ParseError InsufficientArgs
          | arg2 :: _ => ParseOk (mkParams arg1 arg2)
          end
      end
  end.

(** The process environment [main] touches: [fs::read] ([None] is an
    [Err]); standard input as the outcome of each successive
    [read_to_end] ([stdin_read k] is the [k]-th, [None] an [Err]), with
    the number of reads done so far; and whether writing to standard
    output and to standard error succeeds ([println!] and [eprintln!]
    panic when it does not). *)
Record World := mkWorld {
  fs_read : String.string -> option Buf;
  stdin_read : nat -> option Buf;
  stdin_reads : nat;
  stdout_ok : bool;
  stderr_ok : bool
}.

(** How the process ends: [return ExitCode::from(n)], or a panic
    ([unwrap] on [Err], [panic!], a failed [println!] or [eprintln!]). *)
Inductive Outcome := Exit (code : nat) | Panic.

(** [get_file_from_stdin]: [None] is the [panic!("Failed to read from
    stdin")]; each call is one more [read_to_end] on standard input. *)
Definition get_file_from_stdin (w : World) : option (Buf * World) :=
  match stdin_read w (stdin_reads w) with
  | Some buf =>
      Some (buf, mkWorld (fs_read w) (stdin_read w) (S (stdin_reads w))
                         (stdout_ok w) (stderr_ok w))
  | None => None
  end.

(** [read_file_contents]: ["-"] reads standard input, anything else
    [fs::read(filepath).unwrap()] ([None] is the panic). *)
Definition read_file_contents (w : World) (filepath : String.string)
    : option (Buf * World) :=
  if String.eqb filepath "-" then get_file_from_stdin w
  else match fs_read w filepath with
       | Some buf => Some (buf, w)
       | None => None
       end.

(** [main]: its exit status.  The usage message goes through [eprintln!].
    After both reads, [main] formats the two files line by line into a
    buffer (with [writeln!] into a [Vec], which cannot fail, and
    [String::from_utf8] of text built from [from_utf8_lossy] strings,
    which cannot fail either) and prints it with [println!]; the bytes
    printed do not influence the status, and [main] returns
    [ExitCode::SUCCESS]. *)
Definition main (w : World) (opts : list String.string) : Outcome :=
  match parse_params opts with
  | ParseError _ => if stderr_ok w then Exit 2 else Panic
  | ParseOk params =>
      match read_file_contents w (file1 params) with
      | None => Panic
      | Some (_, w) =>
          match read_file_contents w (file2 params) with
          | None => Panic
          | Some (_, w) => if stdout_ok w then Exit 0 else Panic
          end
      end
  end.

End Sdiff.

(** ** Test inputs *)

(** String literals joined with [b'\n'] separators. *)
Fixpoint join_nl (ls : list String.string) : Buf :=
  match ls with
  | [] => []
  | [l] => bs l
  | l :: ls' => bs l ++ [b_nl] ++ join_nl ls'
  end.

(** The rows of [diff] on the repository's [test_mixed_changes]. *)
Example diff_mixed_changes :
  diff false (join_nl ["a"; "b"; "c"]) (join_nl ["a"; "modified"; "new"])
  = Some (bs "a" ++ repeat b_space 61 ++ bs "  a" ++ [b_nl]
          ++ bs "b" ++ repeat b_space 61 ++ bs "| modified" ++ [b_nl]
          ++ bs "c" ++ repeat b_space 61 ++ bs "| new" ++ [b_nl]).
Proof. vm_compute. reflexivity. Qed.

(** [test_left_empty_right_non_empty]. *)
Example diff_left_empty :
  diff false [] (join_nl ["line1"; "line2"])
  = Some (repeat b_space 62 ++ bs "> line1" ++ [b_nl]
          ++ repeat b_space 62 ++ bs "> line2" ++ [b_nl]).
Proof. vm_compute. reflexivity. Qed.

(** ** Spec-side vocabulary *)

(** The bytes of a buffer before its first [b'\n'] (its first line). *)
Fixpoint before_newline (input : Buf) : Buf :=
  match input with
  | [] => []
  | c :: rest => if Byte.eqb c b_nl then [] else c :: before_newline rest
  end.

(** The left index a [Diff] is deduplicated on. *)
Definition row_index (d : Diff) : nat := line_ndx (left_ln d).

(** The symbol [dispatch_to_output] writes for a [Diff]. *)
Definition row_symbol (d : Diff) : Buf :=
  let cl := content (left_ln d) in
  let cr := content (right_ln d) in
  if negb (is_empty cr) && is_empty cl then bs ">"
  else if negb (is_empty cl) && is_empty cr then bs "<"
  else if bytes_eqb cl cr then bs " " else bs "|".

(** The bytes of one formatted row. *)
Definition row_of (target_windows : bool) (d : Diff) : Buf :=
  push_output target_windows []
    (limited_string (content (left_ln d)) 61)
    (limited_string (content (right_ln d)) 61) (row_symbol d) 61.

(** The rows a list of [Diff]s yields: the first [Diff] of each left
    index not in [seen]. *)
Fixpoint first_occurrences (seen : list nat) (ds : list Diff) : list Diff :=
  match ds with
  | [] => []
  | d :: ds' =>
      if existsb (Nat.eqb (row_index d)) seen then first_occurrences seen ds'
      else d :: first_occurrences (seen ++ [row_index d]) ds'
  end.

(** Edit scripts: the left and right projections of the entries. *)
Definition lefts {T : Type} (es : list (Result T)) : list T :=
  flat_map (fun e => match e with Left l | Both l _ => [l] | Right _ => [] end) es.

Definition rights {T : Type} (es : list (Result T)) : list T :=
  flat_map (fun e => match e with Right r | Both _ r => [r] | Left _ => [] end) es.

(** A valid edit script of [xs] into [ys] for the element equality [eqb]:
    it lists [xs] on its left, [ys] on its right, and pairs only equal
    elements in [Both]. *)
Definition valid_script {T : Type} (eqb : T -> T -> bool)
    (xs ys : list T) (es : list (Result T)) : Prop :=
  lefts es = xs /\ rights es = ys /\
  forallb (fun e => match e with Both l r => eqb l r | _ => true end) es = true.

(** The line at position [k] of [lines], or the placeholder
    [Line::new(k, &[])] the reconciler builds when there is none. *)
Definition line_or_placeholder (lines : list Line) (k : nat) : Line :=
  match nth_error lines k with
  | Some l => l
  | None => mkLine k []
  end.

(** Line [k] of the left against line [k] of the right. *)
Definition pair_at (L R : list Line) (k : nat) : Diff :=
  mkDiff (line_or_placeholder L k) (line_or_placeholder R k).

(** The number of [b'\n'] bytes of a buffer. *)
Definition count_nl (b : Buf) : nat := length (filter (Byte.eqb b_nl) b).

(** The inverse of splitting on [b'\n']: join with [b'\n']. *)
Fixpoint join_lines (ps : list Buf) : Buf :=
  match ps with
  | [] => []
  | [p] => p
  | p :: ps' => p ++ [b_nl] ++ join_lines ps'
  end.

(** Every ["\n"] of a buffer written as ["\r\n"]. *)
Fixpoint to_crlf (b : Buf) : Buf :=
  match b with
  | [] => []
  | c :: rest => (if Byte.eqb c b_nl then [b_cr; b_nl] else [c]) ++ to_crlf rest
  end.

(** A [Diff] with its two sides exchanged. *)
Definition swap_diff (d : Diff) : Diff := mkDiff (right_ln d) (left_ln d).

(** A symbol with [<] and [>] exchanged. *)
Definition mirror_symbol (s : Buf) : Buf :=
  if bytes_eqb s (bs ">") then bs "<"
  else if bytes_eqb s (bs "<") then bs ">" else s.

(** ** Basic lemmas *)

Lemma bytes_eqb_eq (a b : Buf) : bytes_eqb a b = true <-> a = b.
Proof.
  revert b; induction a as [|x a IH]; intros [|y b]; simpl;
    try (split; congruence).
  rewrite andb_true_iff, IH. split.
  - intros [H ->]. apply Byte.byte_dec_bl in H. now subst.
  - intros [= -> ->]. split; [apply Byte.byte_dec_lb|]; reflexivity.
Qed.

Lemma bytes_eqb_refl (a : Buf) : bytes_eqb a a = true.
Proof. now apply bytes_eqb_eq. Qed.

Lemma is_empty_true (a : Buf) : is_empty a = true <-> a = [].
Proof. destruct a; simpl; split; congruence. Qed.

Lemma limited_string_nil (n : nat) : limited_string [] n = [].
Proof. destruct n; reflexivity. Qed.

Lemma push_output_app (w : bool) (out l r sym : Buf) (n : nat) :
  push_output w out l r sym n = out ++ push_output w [] l r sym n.
Proof. reflexivity. Qed.

(** One step of the dispatch: a skip, or one row appended. *)
Lemma dispatch_to_output_eq (w : bool) (out : Buf) (d : Diff) (al : list nat) :
  dispatch_to_output w out d al =
  if existsb (Nat.eqb (row_index d)) al then (out, al)
  else (out ++ row_of w d, al ++ [row_index d]).
Proof.
  unfold dispatch_to_output, row_of, row_symbol, row_index.
  destruct (existsb _ al); [reflexivity|].
  destruct (is_empty (content (right_ln d))) eqn:Er;
    destruct (is_empty (content (left_ln d))) eqn:El; cbn [negb andb];
    rewrite (push_output_app w out);
    [apply is_empty_true in Er | apply is_empty_true in Er
    | apply is_empty_true in El | ];
    rewrite ?Er, ?El, ?limited_string_nil;
    try (destruct (bytes_eqb _ _)); reflexivity.
Qed.

Lemma dispatch_all_eq (w : bool) (L R : list Line) (es : list (Result Line))
    (out : Buf) (al : list nat) :
  dispatch_all w L R es (out, al) =
  let rows := first_occurrences al (map (diff_of_result L R) es) in
  (out ++ concat (map (row_of w) rows), al ++ map row_index rows).
Proof.
  unfold dispatch_all.
  revert out al; induction es as [|e es IH]; intros out al; cbn [fold_left map].
  - cbn. now rewrite !app_nil_r.
  - rewrite dispatch_to_output_eq. cbn [first_occurrences fst snd].
    destruct (existsb _ al).
    + apply IH.
    + rewrite IH. cbn [map concat]. now rewrite <- !app_assoc.
Qed.

Lemma existsb_nat_In (k : nat) (l : list nat) :
  existsb (Nat.eqb k) l = true <-> In k l.
Proof.
  rewrite existsb_exists. split.
  - intros [x [Hx Hk]]. apply Nat.eqb_eq in Hk. now subst.
  - intros H. exists k. split; [exact H | apply Nat.eqb_refl].
Qed.

(** *** The line indexer *)

Lemma split_newline_hd (input : Buf) :
  exists ps, split_newline input = before_newline input :: ps.
Proof.
  induction input as [|c rest [ps IH]]; simpl.
  - now exists [].
  - rewrite IH. destruct (Byte.eqb c b_nl).
    + now exists (before_newline rest :: ps).
    + now exists ps.
Qed.

Lemma split_lines_first (input : Buf) :
  nth_error (split_lines input) 0 = Some (mkLine 0 (before_newline input)).
Proof.
  unfold split_lines. destruct (split_newline_hd input) as [ps ->]. reflexivity.
Qed.

(** The line at position [k] of [enumerate_lines i] has index [i + k]. *)
Lemma enumerate_lines_nth (i k : nat) (pieces : list Buf) (l : Line) :
  nth_error (enumerate_lines i pieces) k = Some l -> line_ndx l = i + k.
Proof.
  revert i k; induction pieces as [|p ps IH]; intros i k H;
    destruct k as [|k]; simpl in H; try discriminate.
  - injection H as <-. simpl. lia.
  - apply IH in H. lia.
Qed.

Lemma split_lines_nth (input : Buf) (k : nat) (l : Line) :
  nth_error (split_lines input) k = Some l -> line_ndx l = k.
Proof. intros H. now apply enumerate_lines_nth in H. Qed.

(** *** The reconciler, up to its edit script *)

Lemma diff_with_eq (w : bool) align (A B : Buf) :
  diff_with w align A B =
  if is_empty (before_newline A) && is_empty (before_newline B) then Some []
  else Some (fst (dispatch_all w (split_lines A) (split_lines B)
                    (align (split_lines A) (split_lines B)) ([], []))).
Proof.
  unfold diff_with. rewrite !split_lines_first. cbn [content].
  destruct (is_empty (before_newline A)); destruct (is_empty (before_newline B));
    reflexivity.
Qed.

Lemma diff_with_rows (w : bool) align (A B : Buf) :
  diff_with w align A B =
  if is_empty (before_newline A) && is_empty (before_newline B) then Some []
  else Some (concat (map (row_of w)
         (first_occurrences []
            (map (diff_of_result (split_lines A) (split_lines B))
               (align (split_lines A) (split_lines B)))))).
Proof.
  rewrite diff_with_eq, dispatch_all_eq. reflexivity.
Qed.

(** *** Deduplication *)

Lemma first_occurrences_incl (seen : list nat) (ds : list Diff) :
  incl (first_occurrences seen ds) ds.
Proof.
  revert seen; induction ds as [|d ds IH]; intros seen; simpl.
  - apply incl_refl.
  - destruct (existsb _ seen).
    + apply incl_tl, IH.
    + apply incl_cons; [now left | apply incl_tl, IH].
Qed.

Lemma first_occurrences_index (seen : list nat) (ds : list Diff) (k : nat) :
  In k (map row_index (first_occurrences seen ds)) <->
  In k (map row_index ds) /\ ~ In k seen.
Proof.
  revert seen; induction ds as [|d ds IH]; intros seen; simpl.
  - tauto.
  - destruct (existsb (Nat.eqb (row_index d)) seen) eqn:E.
    + apply existsb_nat_In in E. rewrite IH.
      split; [tauto|]. intros [[<- | H] Hn]; [contradiction | tauto].
    + assert (Hd : ~ In (row_index d) seen).
      { intros H. apply existsb_nat_In in H. congruence. }
      simpl. rewrite IH, in_app_iff. simpl.
      split.
      * intros [<- | [H Hn]]; [tauto|]. split; [tauto|]. tauto.
      * intros [[<- | H] Hn]; [now left|].
        destruct (Nat.eq_dec (row_index d) k) as [<- | Hne]; [now left|].
        right. split; [exact H|]. intros [? | [? | []]]; contradiction.
Qed.

Lemma first_occurrences_nodup (seen : list nat) (ds : list Diff) :
  NoDup (map row_index (first_occurrences seen ds)).
Proof.
  revert seen; induction ds as [|d ds IH]; intros seen; simpl.
  - constructor.
  - destruct (existsb _ seen); [apply IH|].
    simpl. constructor; [|apply IH].
    rewrite first_occurrences_index, in_app_iff. simpl. tauto.
Qed.

Lemma first_occurrences_count (ds : list Diff) :
  length (first_occurrences [] ds) =
  length (nodup Nat.eq_dec (map row_index ds)).
Proof.
  rewrite <- (length_map row_index (first_occurrences [] ds)).
  apply Nat.le_antisymm; apply NoDup_incl_length.
  - apply first_occurrences_nodup.
  - intros k Hk. apply nodup_In. now apply first_occurrences_index in Hk.
  - apply NoDup_nodup.
  - intros k Hk. apply nodup_In in Hk. apply first_occurrences_index. tauto.
Qed.

(** *** Edit scripts of a buffer against itself *)

Lemma line_eqb_spec (l r : Line) :
  reflect (line_ndx l = line_ndx r /\ content l = content r) (line_eqb l r).
Proof.
  unfold line_eqb. apply iff_reflect.
  rewrite andb_true_iff, Nat.eqb_eq, bytes_eqb_eq. reflexivity.
Qed.

Lemma line_eqb_true (l r : Line) : line_eqb l r = true -> l = r.
Proof.
  intros H. destruct (line_eqb_spec l r) as [[Hi Hc] | ]; [|discriminate].
  destruct l, r; simpl in *; congruence.
Qed.

Lemma skipn_cons_inv {T : Type} (L : list T) (a : nat) (x : T) (rest : list T) :
  skipn a L = x :: rest -> nth_error L a = Some x /\ skipn (S a) L = rest.
Proof.
  revert a; induction L as [|y L IH]; intros a H; destruct a as [|a];
    simpl in *; try discriminate.
  - injection H as -> ->. split; [reflexivity|]. now destruct rest.
  - now apply IH.
Qed.

Lemma nth_error_len {T : Type} (L : list T) (a : nat) (x : T) :
  nth_error L a = Some x -> a < length L.
Proof. intros H. apply nth_error_Some. congruence. Qed.

Lemma existsb_seq (k m : nat) :
  existsb (Nat.eqb k) (seq 0 m) = (k <? m).
Proof.
  destruct (k <? m) eqn:E.
  - apply existsb_nat_In, in_seq. apply Nat.ltb_lt in E. lia.
  - apply not_true_iff_false. rewrite existsb_nat_In, in_seq.
    apply Nat.ltb_ge in E. lia.
Qed.

Section SelfDiff.

Variable L : list Line.
Hypothesis L_index : forall k l, nth_error L k = Some l -> line_ndx l = k.

(** Invariant of the loop over a valid edit script of [L] into [L]: after
    [a] lefts and [b] rights, the dispatched indices are [0 .. max a b - 1]
    and the rest of the loop emits the lines from [max a b] on, each
    against itself. *)
Lemma first_occurrences_self (es : list (Result Line)) (a b : nat) :
  lefts es = skipn a L -> rights es = skipn b L ->
  forallb (fun e => match e with Both l r => line_eqb l r | _ => true end) es = true ->
  a <= length L -> b <= length L ->
  first_occurrences (seq 0 (Nat.max a b)) (map (diff_of_result L L) es) =
  map (fun l => mkDiff l l) (skipn (Nat.max a b) L).
Proof.
  revert a b; induction es as [|e es IH]; intros a b Hl Hr Hb Ha Hb'.
  - simpl in Hl, Hr.
    assert (length L <= a).
    { pose proof (length_skipn a L) as E. rewrite <- Hl in E. simpl in E. lia. }
    assert (length L <= b).
    { pose proof (length_skipn b L) as E. rewrite <- Hr in E. simpl in E. lia. }
    rewrite skipn_all2 by lia. reflexivity.
  - simpl in Hb. apply andb_true_iff in Hb as [He Hb].
    destruct e as [l | r | l r]; simpl in Hl, Hr.
    + apply eq_sym, skipn_cons_inv in Hl as [Hn Hl].
      pose proof (L_index _ _ Hn) as Hi. pose proof (nth_error_len _ _ _ Hn).
      cbn [map first_occurrences diff_of_result]. rewrite Hi, Hn.
      unfold row_index. cbn [left_ln]. rewrite Hi, existsb_seq.
      destruct (a <? Nat.max a b) eqn:E.
      * apply Nat.ltb_lt in E.
        replace (Nat.max a b) with (Nat.max (S a) b) by lia.
        apply IH; auto; lia.
      * apply Nat.ltb_ge in E.
        replace (Nat.max a b) with a by lia.
        replace (seq 0 a ++ [a]) with (seq 0 (S a)) by (rewrite seq_S; reflexivity).
        assert (skipn a L = l :: skipn (S a) L) as Hs.
        { clear -Hn. revert a Hn; induction L as [|y L' IHL]; intros [|a] H;
            simpl in *; try discriminate; [now injection H as -> | now apply IHL]. }
        rewrite Hs. cbn [map]. f_equal.
        replace (S a) with (Nat.max (S a) b) by lia.
        apply IH; auto; lia.
    + apply eq_sym, skipn_cons_inv in Hr as [Hn Hr].
      pose proof (L_index _ _ Hn) as Hi. pose proof (nth_error_len _ _ _ Hn).
      cbn [map first_occurrences diff_of_result]. rewrite Hi, Hn.
      unfold row_index. cbn [left_ln]. rewrite Hi, existsb_seq.
      destruct (b <? Nat.max a b) eqn:E.
      * apply Nat.ltb_lt in E.
        replace (Nat.max a b) with (Nat.max a (S b)) by lia.
        apply IH; auto; lia.
      * apply Nat.ltb_ge in E.
        replace (Nat.max a b) with b by lia.
        replace (seq 0 b ++ [b]) with (seq 0 (S b)) by (rewrite seq_S; reflexivity).
        assert (skipn b L = r :: skipn (S b) L) as Hs.
        { clear -Hn. revert b Hn; induction L as [|y L' IHL]; intros [|b] H;
            simpl in *; try discriminate; [now injection H as -> | now apply IHL]. }
        rewrite Hs. cbn [map]. f_equal.
        replace (S b) with (Nat.max a (S b)) by lia.
        apply IH; auto; lia.
    + apply line_eqb_true in He. subst r.
      apply eq_sym, skipn_cons_inv in Hl as [Hn Hl].
      apply eq_sym, skipn_cons_inv in Hr as [Hn' Hr].
      pose proof (L_index _ _ Hn) as Hi. pose proof (L_index _ _ Hn') as Hi'.
      pose proof (nth_error_len _ _ _ Hn).
      assert (b = a) by congruence. subst b. replace (Nat.max a a) with a by lia.
      cbn [map first_occurrences diff_of_result].
      unfold row_index. cbn [left_ln]. rewrite Hi, existsb_seq. replace (Nat.max a a) with a by lia. rewrite Nat.ltb_irrefl.
      replace (seq 0 a ++ [a]) with (seq 0 (S a)) by (rewrite seq_S; reflexivity).
      assert (skipn a L = l :: skipn (S a) L) as Hs.
      { clear -Hn. revert a Hn; induction L as [|y L' IHL]; intros [|a] H;
          simpl in *; try discriminate; [now injection H as -> | now apply IHL]. }
      rewrite Hs. cbn [map]. f_equal.
      replace (S a) with (Nat.max (S a) (S a)) by lia. rewrite Hi in Hr, Hb'. apply IH; auto; lia.
Qed.

End SelfDiff.

(** *** Rows and symbols *)

(** The [Diff]s [diff_with] emits rows for, in order. *)
Definition diff_rows (align : list Line -> list Line -> list (Result Line))
    (A B : Buf) : list Diff :=
  if is_empty (before_newline A) && is_empty (before_newline B) then []
  else first_occurrences []
         (map (diff_of_result (split_lines A) (split_lines B))
            (align (split_lines A) (split_lines B))).

Lemma diff_with_concat (w : bool) align (A B : Buf) :
  diff_with w align A B = Some (concat (map (row_of w) (diff_rows align A B))).
Proof.
  rewrite diff_with_rows. unfold diff_rows.
  destruct (_ && _); reflexivity.
Qed.

Lemma row_symbol_cases (d : Diff) :
  let cl := content (left_ln d) in
  let cr := content (right_ln d) in
  (cl = [] /\ cr <> [] /\ row_symbol d = bs ">") \/
  (cl <> [] /\ cr = [] /\ row_symbol d = bs "<") \/
  (cl = cr /\ row_symbol d = bs " ") \/
  (cl <> [] /\ cr <> [] /\ cl <> cr /\ row_symbol d = bs "|").
Proof.
  unfold row_symbol. destruct d as [[il cl] [ir cr]]; cbn [content left_ln right_ln].
  destruct cl as [|x cl]; destruct cr as [|y cr]; cbn [is_empty negb andb].
  - right; right; left. split; reflexivity.
  - left. repeat split; discriminate.
  - right; left. repeat split; discriminate.
  - destruct (bytes_eqb (x :: cl) (y :: cr)) eqn:E.
    + apply bytes_eqb_eq in E. right; right; left. split; [exact E | reflexivity].
    + right; right; right. repeat split; try discriminate.
      intros H. apply bytes_eqb_eq in H. congruence.
Qed.

Lemma skipn_nth_cons {T : Type} (L : list T) (a : nat) (x : T) :
  nth_error L a = Some x -> skipn a L = x :: skipn (S a) L.
Proof.
  revert a; induction L as [|y L' IHL]; intros [|a] H; simpl in *;
    try discriminate; [now injection H as -> | now apply IHL].
Qed.

Lemma seq_cons_lt (k N : nat) :
  k < N -> seq k (N - k) = k :: seq (S k) (N - S k).
Proof. intros H. replace (N - k) with (S (N - S k)) by lia. reflexivity. Qed.

Section Positional.

Variables L R : list Line.
Hypothesis L_index : forall k l, nth_error L k = Some l -> line_ndx l = k.
Hypothesis R_index : forall k r, nth_error R k = Some r -> line_ndx r = k.

(** Invariant of the loop over a valid edit script of [L] into [R]: after
    [a] lefts and [b] rights the dispatched indices are [0 .. max a b - 1],
    and the rest of the loop emits [pair_at k] for the later [k]. *)
Lemma first_occurrences_positional (es : list (Result Line)) (a b : nat) :
  lefts es = skipn a L -> rights es = skipn b R ->
  forallb (fun e => match e with Both l r => line_eqb l r | _ => true end) es = true ->
  a <= length L -> b <= length R ->
  first_occurrences (seq 0 (Nat.max a b)) (map (diff_of_result L R) es) =
  map (pair_at L R)
    (seq (Nat.max a b) (Nat.max (length L) (length R) - Nat.max a b)).
Proof.
  revert a b; induction es as [|e es IH]; intros a b Hl Hr Hb Ha Hb'.
  - simpl in Hl, Hr.
    pose proof (length_skipn a L) as E1. rewrite <- Hl in E1. simpl in E1.
    pose proof (length_skipn b R) as E2. rewrite <- Hr in E2. simpl in E2.
    replace (Nat.max (length L) (length R) - Nat.max a b) with 0 by lia.
    reflexivity.
  - simpl in Hb. apply andb_true_iff in Hb as [He Hb].
    destruct e as [l | r | l r]; simpl in Hl, Hr.
    + apply eq_sym, skipn_cons_inv in Hl as [Hn Hl].
      pose proof (L_index _ _ Hn) as Hi. pose proof (nth_error_len _ _ _ Hn).
      assert (Hd : diff_of_result L R (Left l) = pair_at L R a).
      { unfold diff_of_result, pair_at, line_or_placeholder.
        rewrite Hi, Hn. destruct (nth_error R a); reflexivity. }
      assert (Hx : row_index (pair_at L R a) = a).
      { unfold row_index, pair_at, line_or_placeholder. cbn [left_ln].
        now rewrite Hn. }
      cbn [map first_occurrences]. rewrite Hd, Hx, existsb_seq.
      destruct (a <? Nat.max a b) eqn:E.
      * apply Nat.ltb_lt in E.
        replace (Nat.max a b) with (Nat.max (S a) b) by lia.
        apply IH; auto; lia.
      * apply Nat.ltb_ge in E.
        replace (Nat.max a b) with a by lia.
        replace (seq 0 a ++ [a]) with (seq 0 (S a)) by (rewrite seq_S; reflexivity).
        rewrite (seq_cons_lt a) by lia. cbn [map]. f_equal.
        replace (S a) with (Nat.max (S a) b) by lia.
        apply IH; auto; lia.
    + apply eq_sym, skipn_cons_inv in Hr as [Hn Hr].
      pose proof (R_index _ _ Hn) as Hi. pose proof (nth_error_len _ _ _ Hn).
      assert (Hd : diff_of_result L R (Right r) = pair_at L R b).
      { unfold diff_of_result, pair_at, line_or_placeholder.
        rewrite Hi, Hn. destruct (nth_error L b); reflexivity. }
      assert (Hx : row_index (pair_at L R b) = b).
      { unfold row_index, pair_at, line_or_placeholder. cbn [left_ln].
        destruct (nth_error L b) eqn:El; [now apply L_index | reflexivity]. }
      cbn [map first_occurrences]. rewrite Hd, Hx, existsb_seq.
      destruct (b <? Nat.max a b) eqn:E.
      * apply Nat.ltb_lt in E.
        replace (Nat.max a b) with (Nat.max a (S b)) by lia.
        apply IH; auto; lia.
      * apply Nat.ltb_ge in E.
        replace (Nat.max a b) with b by lia.
        replace (seq 0 b ++ [b]) with (seq 0 (S b)) by (rewrite seq_S; reflexivity).
        rewrite (seq_cons_lt b) by lia. cbn [map]. f_equal.
        replace (S b) with (Nat.max a (S b)) by lia.
        apply IH; auto; lia.
    + apply line_eqb_true in He. subst r.
      apply eq_sym, skipn_cons_inv in Hl as [Hn Hl].
      apply eq_sym, skipn_cons_inv in Hr as [Hn' Hr].
      pose proof (L_index _ _ Hn) as Hi. pose proof (R_index _ _ Hn') as Hi'.
      pose proof (nth_error_len _ _ _ Hn). pose proof (nth_error_len _ _ _ Hn').
      assert (b = a) by congruence. subst b.
      assert (Hd : diff_of_result L R (Both l l) = pair_at L R a).
      { rewrite Hi in Hn'. unfold pair_at, line_or_placeholder. rewrite Hn, Hn'. reflexivity. }
      assert (Hx : row_index (pair_at L R a) = a).
      { unfold row_index, pair_at, line_or_placeholder. cbn [left_ln].
        now rewrite Hn. }
      cbn [map first_occurrences]. rewrite Hd, Hx, existsb_seq.
      rewrite Hi. replace (Nat.max a a) with a by lia. rewrite Nat.ltb_irrefl.
      replace (seq 0 a ++ [a]) with (seq 0 (S a)) by (rewrite seq_S; reflexivity).
      rewrite (seq_cons_lt a) by lia. cbn [map]. f_equal.
      replace (S a) with (Nat.max (S a) (S a)) by lia.
      rewrite Hi in Hr. apply IH; auto; lia.
Qed.

End Positional.

(** Each row of [diff] is the [Diff] the loop forms from an entry of the
    edit script. *)
Lemma diff_rows_from_script align (A B : Buf) (d : Diff) :
  In d (diff_rows align A B) ->
  exists e, In e (align (split_lines A) (split_lines B)) /\
            d = diff_of_result (split_lines A) (split_lines B) e.
Proof.
  unfold diff_rows. destruct (_ && _); [intros []|].
  intros H. apply first_occurrences_incl in H.
  apply in_map_iff in H as (e & He & Hin). now exists e.
Qed.

(** Under a valid edit script, the rows of [diff] pair line [k] of each
    side, for every position [k] below the larger line count. *)
Lemma diff_rows_positional align (A B : Buf) :
  valid_script line_eqb (split_lines A) (split_lines B)
    (align (split_lines A) (split_lines B)) ->
  is_empty (before_newline A) && is_empty (before_newline B) = false ->
  diff_rows align A B =
    map (pair_at (split_lines A) (split_lines B))
      (seq 0 (Nat.max (length (split_lines A)) (length (split_lines B)))).
Proof.
  intros [Hl [Hr Hb]] Hne. unfold diff_rows. rewrite Hne.
  pose proof (first_occurrences_positional (split_lines A) (split_lines B)
                (split_lines_nth A) (split_lines_nth B)
                (align (split_lines A) (split_lines B)) 0 0 Hl Hr Hb
                (Nat.le_0_l _) (Nat.le_0_l _)) as H.
  cbn [Nat.max seq] in H. rewrite Nat.sub_0_r in H. exact H.
Qed.

(** ** Claims *)

(** *** C1 *)

(** C1 (counterexample): two lines with equal content bytes at different
    ordinal positions do not match under the [PartialEq] the alignment
    uses; on left "x\na" against right "a" the edit script pairs nothing. *)
Lemma C1_equal_content_lines_do_not_match :
  line_eqb (mkLine 0 (bs "a")) (mkLine 1 (bs "a")) = false /\
  slice line_eqb (split_lines (join_nl ["x"; "a"])) (split_lines (bs "a")) =
  [Left (mkLine 0 (bs "x")); Left (mkLine 1 (bs "a")); Right (mkLine 0 (bs "a"))].
Proof. split; vm_compute; reflexivity. Qed.

(** C1 (amended): [diff] hands the two line vectors to [diff::slice], which
    compares [Line] records with their derived [PartialEq]: two lines match
    exactly when both their indices and their content bytes are equal. *)
Theorem diff_aligns_by_index_and_content :
  forall (w : bool) (A B : Buf) (l r : Line),
  diff w A B = diff_with w (slice line_eqb) A B /\
  (line_eqb l r = true <-> line_ndx l = line_ndx r /\ content l = content r).
Proof.
  intros w A B l r. split; [reflexivity|].
  symmetry. apply reflect_iff, line_eqb_spec.
Qed.

(** *** C2 *)

(** A process environment with two readable, different files. *)
Definition world_two_files : Sdiff.World :=
  Sdiff.mkWorld
    (fun path =>
       if String.eqb path "left.txt" then Some (bs "original")
       else if String.eqb path "right.txt" then Some (bs "modified")
       else None)
    (fun _ => Some []) 0 true true.

(** C2 (code bug): [main] returns [ExitCode::SUCCESS] (0) for two files
    that differ, panics (instead of exiting with 2) on a missing file or a
    failed read of standard input, and never exits with 1. *)
Theorem sdiff_main_exit_status :
  Sdiff.main world_two_files ["sdiff"; "left.txt"; "right.txt"] = Sdiff.Exit 0 /\
  Sdiff.main world_two_files ["sdiff"; "left.txt"; "missing.txt"] = Sdiff.Panic /\
  Sdiff.main (Sdiff.mkWorld (Sdiff.fs_read world_two_files) (fun _ => None) 0 true true)
    ["sdiff"; "-"; "right.txt"] = Sdiff.Panic /\
  Sdiff.main world_two_files ["sdiff"; "left.txt"] = Sdiff.Exit 2 /\
  (forall w opts, Sdiff.main w opts <> Sdiff.Exit 1).
Proof.
  split; [vm_compute; reflexivity|].
  split; [vm_compute; reflexivity|].
  split; [vm_compute; reflexivity|].
  split; [vm_compute; reflexivity|].
  intros w opts. unfold Sdiff.main.
  destruct (Sdiff.parse_params opts) as [p | e];
    [|destruct (Sdiff.stderr_ok w); discriminate].
  destruct (Sdiff.read_file_contents w (Sdiff.file1 p)) as [[? w1] |]; [|discriminate].
  destruct (Sdiff.read_file_contents w1 (Sdiff.file2 p)) as [[? w2] |]; [|discriminate].
  destruct (Sdiff.stdout_ok w2); discriminate.
Qed.

(** *** C3 *)

(** C3 (counterexample): on left "a\n" against right "a\nb" the second row
    pairs two real lines (index 1 exists on both sides) whose contents
    differ, and its symbol is [>], not [|]: a present but empty line is
    treated like an absent one. *)
Lemma C3_present_empty_line_gets_gt :
  nth_error (split_lines (join_nl ["a"; ""])) 1 = Some (mkLine 1 []) /\
  nth_error (split_lines (join_nl ["a"; "b"])) 1 = Some (mkLine 1 (bs "b")) /\
  diff false (join_nl ["a"; ""]) (join_nl ["a"; "b"]) =
  Some (push_output false [] (bs "a") (bs "a") (bs " ") 61
        ++ push_output false [] [] (bs "b") (bs ">") 61).
Proof. repeat split; vm_compute; reflexivity. Qed.

(** C3 (amended): the symbol of every row depends only on the two full
    contents, not on the edit-script tag nor on whether a side is a real
    line or a placeholder: [>] when the left content is empty and the
    right is not, [<] when the right content is empty and the left is not,
    otherwise the identical symbol when the contents are byte-equal and
    [|] when they differ.  The rows are the [Diff]s the loop forms from
    the entries of the edit script; under a valid edit script they pair
    line [k] of the left with line [k] of the right. *)
Theorem diff_row_symbols :
  forall (w : bool) align (A B : Buf),
  diff_with w align A B = Some (concat (map (row_of w) (diff_rows align A B))) /\
  Forall (fun d =>
    (exists e, In e (align (split_lines A) (split_lines B)) /\
               d = diff_of_result (split_lines A) (split_lines B) e) /\
    let cl := content (left_ln d) in
    let cr := content (right_ln d) in
    ((cl = [] /\ cr <> [] /\ row_symbol d = bs ">") \/
     (cl <> [] /\ cr = [] /\ row_symbol d = bs "<") \/
     (cl = cr /\ row_symbol d = bs " ") \/
     (cl <> [] /\ cr <> [] /\ cl <> cr /\ row_symbol d = bs "|")))
    (diff_rows align A B) /\
  (valid_script line_eqb (split_lines A) (split_lines B)
     (align (split_lines A) (split_lines B)) ->
   is_empty (before_newline A) && is_empty (before_newline B) = false ->
   diff_rows align A B =
     map (pair_at (split_lines A) (split_lines B))
       (seq 0 (Nat.max (length (split_lines A)) (length (split_lines B))))).
Proof.
  intros w align A B. split; [apply diff_with_concat|]. split.
  - apply Forall_forall. intros d Hd. split.
    + exact (diff_rows_from_script align A B d Hd).
    + apply row_symbol_cases.
  - apply diff_rows_positional.
Qed.

(** C3 on left "a\nb\nc" against right "a\nmodified\nnew" with the
    crate's edit script: the rows are the positional pairs. *)
Lemma diff_row_symbols_witness :
  let A := join_nl ["a"; "b"; "c"] in
  let B := join_nl ["a"; "modified"; "new"] in
  valid_script line_eqb (split_lines A) (split_lines B)
    (slice line_eqb (split_lines A) (split_lines B)) /\
  is_empty (before_newline A) && is_empty (before_newline B) = false /\
  diff_rows (slice line_eqb) A B =
    map (pair_at (split_lines A) (split_lines B))
      (seq 0 (Nat.max (length (split_lines A)) (length (split_lines B)))).
Proof.
  intros A B.
  assert (Hv : valid_script line_eqb (split_lines A) (split_lines B)
                 (slice line_eqb (split_lines A) (split_lines B))).
  { unfold valid_script. vm_compute. split; [reflexivity | split; reflexivity]. }
  assert (Hn : is_empty (before_newline A) && is_empty (before_newline B) = false)
    by reflexivity.
  split; [exact Hv|]. split; [exact Hn|].
  exact (proj2 (proj2 (diff_row_symbols false (slice line_eqb) A B)) Hv Hn).
Defined.

(** *** C4 *)

Lemma row_of_self (w : bool) (l : Line) :
  row_of w (mkDiff l l) =
  push_output w [] (limited_string (content l) 61)
    (limited_string (content l) 61) (bs " ") 61.
Proof.
  unfold row_of, row_symbol. cbn [left_ln right_ln].
  rewrite bytes_eqb_refl. destruct (content l); reflexivity.
Qed.

(** C4 (counterexample): the empty buffer has one line, but [diff] of it
    against itself has no row. *)
Lemma C4_empty_buffer_no_row :
  split_lines [] = [mkLine 0 []] /\ diff false [] [] = Some [].
Proof. split; reflexivity. Qed.

(** C4 (amended): for a buffer whose first line is not empty and any
    valid edit script of its lines against themselves, [diff A A] is one
    row per line of [A], in order, each with the identical symbol and both
    sides cut to 61 bytes; when no line is longer than 61 bytes, each row
    shows the whole line on both sides. *)
Theorem diff_self_identical_rows :
  forall (w : bool) align (A : Buf),
  valid_script line_eqb (split_lines A) (split_lines A)
    (align (split_lines A) (split_lines A)) ->
  before_newline A <> [] ->
  diff_with w align A A =
    Some (concat (map (fun l =>
      push_output w [] (limited_string (content l) 61)
        (limited_string (content l) 61) (bs " ") 61) (split_lines A))) /\
  ((forall l, In l (split_lines A) -> length (content l) <= 61) ->
   diff_with w align A A =
     Some (concat (map (fun l =>
       push_output w [] (content l) (content l) (bs " ") 61) (split_lines A)))).
Proof.
  intros w align A [Hl [Hr Hb]] Hne.
  assert (Hrows : diff_with w align A A =
    Some (concat (map (fun l =>
      push_output w [] (limited_string (content l) 61)
        (limited_string (content l) 61) (bs " ") 61) (split_lines A)))).
  { rewrite diff_with_rows.
    destruct (is_empty (before_newline A)) eqn:E.
    { apply is_empty_true in E. contradiction. }
    cbn [andb].
    pose proof (first_occurrences_self (split_lines A) (split_lines_nth A)
                  (align (split_lines A) (split_lines A)) 0 0 Hl Hr Hb
                  (Nat.le_0_l _) (Nat.le_0_l _)) as Hfo.
    cbn [Nat.max seq skipn] in Hfo. rewrite Hfo, map_map.
    f_equal. f_equal. apply map_ext. apply row_of_self. }
  split; [exact Hrows|].
  intros Hlen. rewrite Hrows. f_equal. f_equal.
  apply map_ext_in. intros l Hin. unfold limited_string.
  rewrite firstn_all2 by (apply Hlen, Hin). reflexivity.
Qed.

(** C4 (amended), at ["abc\n123"] with the crate's edit script. *)
Lemma diff_self_identical_rows_witness :
  let A := join_nl ["abc"; "123"] in
  valid_script line_eqb (split_lines A) (split_lines A)
    (slice line_eqb (split_lines A) (split_lines A)) /\
  before_newline A <> [] /\
  diff_with false (slice line_eqb) A A =
    Some (concat (map (fun l =>
      push_output false [] (limited_string (content l) 61)
        (limited_string (content l) 61) (bs " ") 61) (split_lines A))).
Proof.
  intros A.
  assert (Hv : valid_script line_eqb (split_lines A) (split_lines A)
                 (slice line_eqb (split_lines A) (split_lines A))).
  { unfold valid_script. vm_compute. split; [reflexivity | split; reflexivity]. }
  assert (Hn : before_newline A <> []) by (vm_compute; discriminate).
  split; [exact Hv|]. split; [exact Hn|].
  exact (proj1 (diff_self_identical_rows false (slice line_eqb) A Hv Hn)).
Defined.

(** *** C5 *)

(** C5 (counterexample): on left "a\na" against right "a" the edit script
    has two entries ([Both], then [Left]) and [diff] emits two rows, not
    one fewer than the entries. *)
Lemma C5_a_a_vs_a_two_rows :
  slice line_eqb (split_lines (join_nl ["a"; "a"])) (split_lines (bs "a")) =
    [Both (mkLine 0 (bs "a")) (mkLine 0 (bs "a")); Left (mkLine 1 (bs "a"))] /\
  diff false (join_nl ["a"; "a"]) (bs "a") =
    Some (push_output false [] (bs "a") (bs "a") (bs " ") 61
          ++ push_output false [] (bs "a") [] (bs "<") 61).
Proof. split; vm_compute; reflexivity. Qed.

(** C5 (amended): a [Diff] whose left index was already dispatched is
    skipped with no output; when the edit script is consulted (the two
    first lines are not both empty), the output is one row per distinct
    left index among the [Diff]s formed from the edit script entries. *)
Theorem diff_one_row_per_left_index :
  forall (w : bool) align (A B : Buf),
  is_empty (before_newline A) && is_empty (before_newline B) = false ->
  (forall out d al, In (row_index d) al -> dispatch_to_output w out d al = (out, al)) /\
  let ds := map (diff_of_result (split_lines A) (split_lines B))
              (align (split_lines A) (split_lines B)) in
  exists rows : list Diff,
    diff_with w align A B = Some (concat (map (row_of w) rows)) /\
    incl rows ds /\
    NoDup (map row_index rows) /\
    (forall k, In k (map row_index rows) <-> In k (map row_index ds)) /\
    length rows = length (nodup Nat.eq_dec (map row_index ds)).
Proof.
  intros w align A B Hne. split.
  - intros out d al Hin. rewrite dispatch_to_output_eq.
    apply existsb_nat_In in Hin. now rewrite Hin.
  - intros ds. exists (first_occurrences [] ds).
    split; [|split; [|split; [|split]]].
    + rewrite diff_with_rows, Hne. reflexivity.
    + apply first_occurrences_incl.
    + apply first_occurrences_nodup.
    + intros k. rewrite first_occurrences_index. simpl. tauto.
    + apply first_occurrences_count.
Qed.

(** C5 (amended), at left "a\na" against right "a". *)
Lemma diff_one_row_per_left_index_witness :
  is_empty (before_newline (join_nl ["a"; "a"])) &&
  is_empty (before_newline (bs "a")) = false /\
  exists rows : list Diff,
    diff_with false (slice line_eqb) (join_nl ["a"; "a"]) (bs "a")
      = Some (concat (map (row_of false) rows)) /\
    length rows = 2.
Proof.
  assert (Hne : is_empty (before_newline (join_nl ["a"; "a"])) &&
                is_empty (before_newline (bs "a")) = false) by reflexivity.
  split; [exact Hne|].
  destruct (diff_one_row_per_left_index false (slice line_eqb)
              (join_nl ["a"; "a"]) (bs "a") Hne) as [_ [rows [Hd [_ [_ [_ Hc]]]]]].
  exists rows. split; [exact Hd|]. rewrite Hc. vm_compute. reflexivity.
Defined.

(** *** C6 *)

(** C6: two empty buffers give an empty output, whatever the edit-script
    collaborator. *)
Theorem diff_both_empty :
  forall (w : bool) align, diff_with w align [] [] = Some [].
Proof. reflexivity. Qed.

(** *** C7 *)

(** C7: every row of the output shows the first 61 bytes of each side's
    content ([limited_string], modelled from the spec) and no other byte
    of it: the rest of the row is spaces, one of the four symbols and the
    line ending.  A content longer than 61 bytes is shown as exactly 61
    bytes.  The rows are the [Diff]s the loop forms from the entries of
    the edit script; under a valid edit script they pair line [k] of the
    left with line [k] of the right. *)
Theorem diff_truncates_to_61 :
  forall (w : bool) align (A B : Buf),
  diff_with w align A B =
    Some (concat (map (fun d =>
      push_output w [] (firstn 61 (content (left_ln d)))
        (firstn 61 (content (right_ln d))) (row_symbol d) 61)
      (diff_rows align A B))) /\
  Forall (fun d =>
    (exists e, In e (align (split_lines A) (split_lines B)) /\
               d = diff_of_result (split_lines A) (split_lines B) e) /\
    In (row_symbol d) [bs ">"; bs "<"; bs " "; bs "|"] /\
    (61 <= length (content (left_ln d)) ->
       length (firstn 61 (content (left_ln d))) = 61) /\
    (61 <= length (content (right_ln d)) ->
       length (firstn 61 (content (right_ln d))) = 61))
    (diff_rows align A B) /\
  (valid_script line_eqb (split_lines A) (split_lines B)
     (align (split_lines A) (split_lines B)) ->
   is_empty (before_newline A) && is_empty (before_newline B) = false ->
   diff_rows align A B =
     map (pair_at (split_lines A) (split_lines B))
       (seq 0 (Nat.max (length (split_lines A)) (length (split_lines B))))).
Proof.
  intros w align A B. split; [rewrite diff_with_concat; reflexivity|]. split.
  - apply Forall_forall. intros d Hd. split; [|split; [|split]].
    + exact (diff_rows_from_script align A B d Hd).
    + destruct (row_symbol_cases d) as [(_ & _ & ->)|[(_ & _ & ->)|[(_ & ->)|(_ & _ & _ & ->)]]];
        cbn; tauto.
    + intros H. rewrite length_firstn. lia.
    + intros H. rewrite length_firstn. lia.
  - apply diff_rows_positional.
Qed.

(** C7 on a left line of 62 bytes against an empty right buffer, with the
    crate's edit script: the rows are the positional pairs. *)
Lemma diff_truncates_to_61_witness :
  let A := bs "0123456789012345678901234567890123456789012345678901234567890X" in
  valid_script line_eqb (split_lines A) (split_lines [])
    (slice line_eqb (split_lines A) (split_lines [])) /\
  is_empty (before_newline A) && is_empty (before_newline []) = false /\
  diff_rows (slice line_eqb) A [] =
    map (pair_at (split_lines A) (split_lines []))
      (seq 0 (Nat.max (length (split_lines A)) (length (split_lines [])))).
Proof.
  intros A.
  assert (Hv : valid_script line_eqb (split_lines A) (split_lines [])
                 (slice line_eqb (split_lines A) (split_lines []))).
  { unfold valid_script. vm_compute. split; [reflexivity | split; reflexivity]. }
  assert (Hn : is_empty (before_newline A) && is_empty (before_newline []) = false)
    by reflexivity.
  split; [exact Hv|]. split; [exact Hn|].
  exact (proj2 (proj2 (diff_truncates_to_61 false (slice line_eqb) A [])) Hv Hn).
Defined.

(** *** C8 *)

(** C8: in every row the left content (cut to 61 bytes) is followed by
    [max(61 - length, 0) + 1] spaces, then the symbol; [push_output] pads
    so for any left content, also one of 61 bytes or more. *)
Theorem diff_left_padding :
  forall (w : bool) align (A B : Buf),
  (forall out left right symbol,
     push_output w out left right symbol 61 =
     out ++ left
     ++ repeat b_space (Z.to_nat (Z.max (61 - Z.of_nat (length left)) 0) + 1)
     ++ symbol ++ [b_space] ++ right ++ eol w) /\
  exists rows : list Diff,
  diff_with w align A B =
    Some (concat (map (fun d =>
      let left := limited_string (content (left_ln d)) 61 in
      left
      ++ repeat b_space (Z.to_nat (Z.max (61 - Z.of_nat (length left)) 0) + 1)
      ++ row_symbol d ++ [b_space]
      ++ limited_string (content (right_ln d)) 61 ++ eol w) rows)).
Proof.
  intros w align A B. split; [reflexivity|].
  exists (diff_rows align A B). rewrite diff_with_concat. reflexivity.
Qed.

(** *** C9 *)

(** C9: splitting any buffer gives at least one line, whose index is 0
    (the empty buffer gives exactly one empty line), so [left_lines[0]]
    and [right_lines[0]] never panic and [diff] returns for every pair of
    buffers, whatever the edit-script collaborator. *)
Theorem split_lines_nonempty_diff_total :
  split_lines [] = [mkLine 0 []] /\
  (forall input : Buf, exists l ls, split_lines input = l :: ls /\ line_ndx l = 0) /\
  (forall (w : bool) align (A B : Buf), exists out, diff_with w align A B = Some out).
Proof.
  split; [reflexivity|]. split.
  - intros input. unfold split_lines.
    destruct (split_newline_hd input) as [ps ->].
    eexists _, _. split; reflexivity.
  - intros w align A B. eexists. apply diff_with_concat.
Qed.

(** *** C10 *)

(** C10: when the first line of both buffers is empty, [diff] returns an
    empty output, whatever follows in the buffers. *)
Theorem diff_first_lines_empty :
  forall (w : bool) align (A B : Buf),
  before_newline A = [] -> before_newline B = [] ->
  diff_with w align A B = Some [].
Proof.
  intros w align A B HA HB. rewrite diff_with_eq, HA, HB. reflexivity.
Qed.

(** C10, at left "\nalpha" against right "\nbeta". *)
Lemma diff_first_lines_empty_witness :
  before_newline (join_nl [""; "alpha"]) = [] /\
  before_newline (join_nl [""; "beta"]) = [] /\
  diff false (join_nl [""; "alpha"]) (join_nl [""; "beta"]) = Some [].
Proof.
  split; [reflexivity|]. split; [reflexivity|].
  apply (diff_first_lines_empty false (slice line_eqb)); reflexivity.
Defined.

(** ** Further properties of the code *)

(** *** Positional pairing *)

(** The rows of [diff] under a valid edit script, position by position. *)
Lemma diff_with_positional :
  forall (w : bool) align (A B : Buf),
  valid_script line_eqb (split_lines A) (split_lines B)
    (align (split_lines A) (split_lines B)) ->
  is_empty (before_newline A) && is_empty (before_newline B) = false ->
  diff_with w align A B =
    Some (concat (map (row_of w)
      (map (pair_at (split_lines A) (split_lines B))
         (seq 0 (Nat.max (length (split_lines A)) (length (split_lines B))))))).
Proof.
  intros w align A B [Hl [Hr Hb]] Hne.
  rewrite diff_with_rows, Hne.
  pose proof (first_occurrences_positional (split_lines A) (split_lines B)
                (split_lines_nth A) (split_lines_nth B)
                (align (split_lines A) (split_lines B)) 0 0 Hl Hr Hb
                (Nat.le_0_l _) (Nat.le_0_l _)) as H.
  cbn [Nat.max seq] in H. rewrite Nat.sub_0_r in H. now rewrite H.
Qed.

(** X1: for every valid edit script, [diff] is positional: when the two
    first lines are not both empty, the output is one row per position [k]
    below the larger line count, pairing line [k] of each side (or a
    placeholder with index [k] and empty content where a side has no line
    [k]).  The alignment chosen by the collaborator does not matter. *)
Theorem diff_positional :
  forall (w : bool) align (A B : Buf),
  valid_script line_eqb (split_lines A) (split_lines B)
    (align (split_lines A) (split_lines B)) ->
  is_empty (before_newline A) && is_empty (before_newline B) = false ->
  diff_with w align A B =
    Some (concat (map (row_of w)
      (map (pair_at (split_lines A) (split_lines B))
         (seq 0 (Nat.max (length (split_lines A)) (length (split_lines B))))))).
Proof. exact diff_with_positional. Qed.

(** X1 at left "a\nb\nc" against right "a\nmodified\nnew" (the
    repository's [test_mixed_changes]) with the crate's edit script. *)
Lemma diff_positional_witness :
  let A := join_nl ["a"; "b"; "c"] in
  let B := join_nl ["a"; "modified"; "new"] in
  valid_script line_eqb (split_lines A) (split_lines B)
    (slice line_eqb (split_lines A) (split_lines B)) /\
  is_empty (before_newline A) && is_empty (before_newline B) = false /\
  diff_with false (slice line_eqb) A B =
    Some (concat (map (row_of false)
      (map (pair_at (split_lines A) (split_lines B))
         (seq 0 (Nat.max (length (split_lines A)) (length (split_lines B))))))).
Proof.
  intros A B.
  assert (Hv : valid_script line_eqb (split_lines A) (split_lines B)
                 (slice line_eqb (split_lines A) (split_lines B))).
  { unfold valid_script. vm_compute. split; [reflexivity | split; reflexivity]. }
  assert (Hn : is_empty (before_newline A) && is_empty (before_newline B) = false)
    by reflexivity.
  split; [exact Hv|]. split; [exact Hn|].
  exact (diff_positional false (slice line_eqb) A B Hv Hn).
Defined.

(** *** Line terminators of the output *)

Lemma count_nl_app (a b : Buf) : count_nl (a ++ b) = count_nl a + count_nl b.
Proof. unfold count_nl. now rewrite filter_app, length_app. Qed.

Lemma count_nl_repeat_space (n : nat) : count_nl (repeat b_space n) = 0.
Proof. induction n as [|n IH]; [reflexivity|]. exact IH. Qed.

Lemma count_nl_firstn (n : nat) (b : Buf) :
  count_nl b = 0 -> count_nl (firstn n b) = 0.
Proof.
  revert n; induction b as [|x b IH]; intros [|n] H; try reflexivity.
  cbn [firstn]. unfold count_nl in *. cbn [filter] in *.
  destruct (Byte.eqb b_nl x); [discriminate|]. now apply IH.
Qed.

Lemma eqb_nl_sym (c : byte) : Byte.eqb c b_nl = false -> Byte.eqb b_nl c = false.
Proof.
  intros E. apply not_true_iff_false. intros H.
  apply Byte.byte_dec_bl in H. subst c. rewrite Byte.byte_dec_lb in E; congruence.
Qed.

Lemma count_nl_split_newline (input : Buf) :
  Forall (fun p => count_nl p = 0) (split_newline input).
Proof.
  induction input as [|c rest IH]; simpl.
  - repeat constructor.
  - destruct (Byte.eqb c b_nl) eqn:E.
    + constructor; [reflexivity | exact IH].
    + assert (Hc : count_nl [c] = 0).
      { unfold count_nl. cbn [filter]. now rewrite (eqb_nl_sym c E). }
      destruct (split_newline rest) as [|p ps]; [repeat constructor; exact Hc|].
      inversion IH as [|? ? Hp Hps]; subst.
      constructor; [|exact Hps].
      change (c :: p) with ([c] ++ p). rewrite count_nl_app, Hc, Hp. reflexivity.
Qed.

Lemma count_nl_enumerate (i k : nat) (ps : list Buf) (l : Line) :
  Forall (fun p => count_nl p = 0) ps ->
  nth_error (enumerate_lines i ps) k = Some l -> count_nl (content l) = 0.
Proof.
  revert i k; induction ps as [|p ps IH]; intros i k H E;
    [destruct k; discriminate|].
  inversion H as [|? ? Hp Hps]; subst.
  destruct k as [|k]; cbn in E.
  - injection E as <-. exact Hp.
  - exact (IH (S i) k Hps E).
Qed.

Lemma count_nl_line_or_placeholder (A : Buf) (k : nat) :
  count_nl (content (line_or_placeholder (split_lines A) k)) = 0.
Proof.
  unfold line_or_placeholder.
  destruct (nth_error (split_lines A) k) as [l|] eqn:E; [|reflexivity].
  exact (count_nl_enumerate 0 k _ l (count_nl_split_newline A) E).
Qed.

Lemma count_nl_row_of (w : bool) (d : Diff) :
  count_nl (content (left_ln d)) = 0 -> count_nl (content (right_ln d)) = 0 ->
  count_nl (row_of w d) = 1.
Proof.
  intros Hl Hr. unfold row_of, push_output, limited_string.
  rewrite !count_nl_app, count_nl_repeat_space, !count_nl_firstn by assumption.
  assert (Hs : count_nl (row_symbol d) = 0).
  { unfold row_symbol. destruct (_ && _); [reflexivity|].
    destruct (_ && _); [reflexivity|]. destruct (bytes_eqb _ _); reflexivity. }
  rewrite Hs. unfold eol. destruct w; reflexivity.
Qed.

Lemma count_nl_concat_rows (w : bool) (A B : Buf) (ks : list nat) :
  count_nl (concat (map (row_of w) (map (pair_at (split_lines A) (split_lines B)) ks)))
  = length ks.
Proof.
  induction ks as [|k ks IH]; [reflexivity|].
  cbn [map concat length]. rewrite count_nl_app, IH, count_nl_row_of; [reflexivity| |];
    apply count_nl_line_or_placeholder.
Qed.

(** *** The line indexer *)

Lemma content_enumerate_lines (i : nat) (ps : list Buf) :
  map content (enumerate_lines i ps) = ps.
Proof.
  revert i; induction ps as [|p ps IH]; intros i; [reflexivity|].
  simpl. now rewrite IH.
Qed.

Lemma line_ndx_enumerate_lines (i : nat) (ps : list Buf) :
  map line_ndx (enumerate_lines i ps) = seq i (length ps).
Proof.
  revert i; induction ps as [|p ps IH]; intros i; [reflexivity|].
  simpl. now rewrite IH.
Qed.

Lemma length_split_newline (input : Buf) :
  length (split_newline input) = S (count_nl input).
Proof.
  induction input as [|c rest IH]; [reflexivity|].
  unfold count_nl in *. cbn [split_newline filter].
  destruct (Byte.eqb c b_nl) eqn:E.
  - apply Byte.byte_dec_bl in E. subst c. cbn. now rewrite IH.
  - rewrite (eqb_nl_sym c E).
    destruct (split_newline_hd rest) as [ps Hps]. rewrite Hps in *. exact IH.
Qed.

Lemma join_lines_cons_cons (p q : Buf) (qs : list Buf) :
  join_lines (p :: q :: qs) = p ++ [b_nl] ++ join_lines (q :: qs).
Proof. reflexivity. Qed.

Lemma join_lines_cons_byte (c : byte) (p : Buf) (ps : list Buf) :
  join_lines ((c :: p) :: ps) = c :: join_lines (p :: ps).
Proof. destruct ps; reflexivity. Qed.

Lemma join_split_newline (input : Buf) :
  join_lines (split_newline input) = input.
Proof.
  induction input as [|c rest IH]; [reflexivity|].
  cbn [split_newline]. destruct (split_newline_hd rest) as [ps Hps].
  rewrite Hps in *. destruct (Byte.eqb c b_nl) eqn:E.
  - apply Byte.byte_dec_bl in E. subst c.
    rewrite join_lines_cons_cons, IH. reflexivity.
  - rewrite join_lines_cons_byte, IH. reflexivity.
Qed.

(** X3: splitting is lossless: the contents of [split_lines input], joined
    with [b'\n'], give [input] back, and no content holds a [b'\n']. *)
Theorem split_lines_join :
  forall input : Buf,
  join_lines (map content (split_lines input)) = input /\
  Forall (fun l => count_nl (content l) = 0) (split_lines input).
Proof.
  intros input. unfold split_lines. split.
  - rewrite content_enumerate_lines. apply join_split_newline.
  - pose proof (count_nl_split_newline input) as H.
    rewrite <- (content_enumerate_lines 0 (split_newline input)) in H.
    apply Forall_map in H. exact H.
Qed.

(** X4: the lines of [split_lines input] are numbered [0, 1, 2, ...] in
    order, and there is one more line than [b'\n'] bytes in [input]. *)
Theorem split_lines_indices :
  forall input : Buf,
  map line_ndx (split_lines input) = seq 0 (length (split_lines input)) /\
  length (split_lines input) = S (count_nl input).
Proof.
  intros input. unfold split_lines. split.
  - rewrite line_ndx_enumerate_lines, <- (length_map content),
      content_enumerate_lines. reflexivity.
  - rewrite <- (length_map content), content_enumerate_lines.
    apply length_split_newline.
Qed.

(** X2: for every valid edit script, when the first lines are not both
    empty, the output of [diff] has one line terminator per line of the
    longer input: [1 + max] of the two counts of [b'\n'] bytes, on either
    platform. *)
Theorem diff_line_count :
  forall (w : bool) align (A B : Buf),
  valid_script line_eqb (split_lines A) (split_lines B)
    (align (split_lines A) (split_lines B)) ->
  is_empty (before_newline A) && is_empty (before_newline B) = false ->
  option_map count_nl (diff_with w align A B) =
    Some (S (Nat.max (count_nl A) (count_nl B))).
Proof.
  intros w align A B Hv Hne.
  rewrite (diff_positional w align A B Hv Hne). cbn [option_map].
  rewrite count_nl_concat_rows, length_seq.
  rewrite (proj2 (split_lines_indices A)), (proj2 (split_lines_indices B)).
  f_equal.
Qed.

(** X2 at left "a\nb\nc" against right "a\nb". *)
Lemma diff_line_count_witness :
  let A := join_nl ["a"; "b"; "c"] in
  let B := join_nl ["a"; "b"] in
  valid_script line_eqb (split_lines A) (split_lines B)
    (slice line_eqb (split_lines A) (split_lines B)) /\
  is_empty (before_newline A) && is_empty (before_newline B) = false /\
  option_map count_nl (diff_with true (slice line_eqb) A B) =
    Some (S (Nat.max (count_nl A) (count_nl B))).
Proof.
  intros A B.
  assert (Hv : valid_script line_eqb (split_lines A) (split_lines B)
                 (slice line_eqb (split_lines A) (split_lines B))).
  { unfold valid_script. vm_compute. split; [reflexivity | split; reflexivity]. }
  assert (Hn : is_empty (before_newline A) && is_empty (before_newline B) = false)
    by reflexivity.
  split; [exact Hv|]. split; [exact Hn|].
  exact (diff_line_count true (slice line_eqb) A B Hv Hn).
Defined.

(** *** Column layout of a row *)

Lemma row_symbol_length (d : Diff) : length (row_symbol d) = 1.
Proof.
  unfold row_symbol. destruct (_ && _); [reflexivity|].
  destruct (_ && _); [reflexivity|]. destruct (bytes_eqb _ _); reflexivity.
Qed.

(** X5: a row [dispatch_to_output] emits is aligned: the left content (at
    most 61 bytes) padded with spaces fills exactly the first 62 bytes, the
    one-byte symbol follows at offset 62, then a space and the right
    content (at most 61 bytes) from offset 64, then the line ending. *)
Theorem dispatch_row_columns :
  forall (w : bool) (out : Buf) (d : Diff) (al : list nat),
  existsb (Nat.eqb (row_index d)) al = false ->
  let left := limited_string (content (left_ln d)) 61 in
  let right := limited_string (content (right_ln d)) 61 in
  let lpad := left ++ repeat b_space (62 - length left) in
  dispatch_to_output w out d al =
    (out ++ lpad ++ row_symbol d ++ [b_space] ++ right ++ eol w,
     al ++ [row_index d]) /\
  length lpad = 62 /\ length (row_symbol d) = 1 /\
  length left <= 61 /\ length right <= 61.
Proof.
  intros w out d al Hnot left right lpad.
  assert (Hleft : length left <= 61)
    by (unfold left, limited_string; rewrite length_firstn; lia).
  assert (Hright : length right <= 61)
    by (unfold right, limited_string; rewrite length_firstn; lia).
  repeat split; [| | apply row_symbol_length | exact Hleft | exact Hright].
  - rewrite dispatch_to_output_eq, Hnot. unfold row_of, push_output, lpad.
    fold left right.
    replace (Z.to_nat (Z.max (Z.of_nat 61 - Z.of_nat (length left)) 0) + 1)
      with (62 - length left) by lia.
    rewrite <- !app_assoc. reflexivity.
  - unfold lpad. rewrite length_app, repeat_length. lia.
Qed.

(** X5 on a fresh [Diff] of "original" against "modified". *)
Lemma dispatch_row_columns_witness :
  let d := mkDiff (mkLine 0 (bs "original")) (mkLine 0 (bs "modified")) in
  existsb (Nat.eqb (row_index d)) [] = false /\
  length (limited_string (content (left_ln d)) 61
          ++ repeat b_space (62 - length (limited_string (content (left_ln d)) 61))) = 62.
Proof.
  intros d. split; [reflexivity|].
  exact (proj1 (proj2 (dispatch_row_columns false [] d [] eq_refl))).
Defined.

(** *** The dispatched set *)

(** X6: the [already_dispatched] vector never holds an index twice: from a
    duplicate-free vector, the loop of [diff] over any edit script ends
    with a duplicate-free vector, extended by the newly dispatched
    indices. *)
Theorem dispatch_all_nodup :
  forall (w : bool) (L R : list Line) (es : list (Result Line))
         (out : Buf) (al : list nat),
  NoDup al ->
  NoDup (snd (dispatch_all w L R es (out, al))) /\
  exists fresh, snd (dispatch_all w L R es (out, al)) = al ++ fresh.
Proof.
  intros w L R es out al Hal. rewrite dispatch_all_eq. cbn [snd].
  split; [|eexists; reflexivity].
  apply NoDup_app; [exact Hal | apply first_occurrences_nodup|].
  intros k Hk Hk'. apply first_occurrences_index in Hk'. tauto.
Qed.

(** X6 from the empty vector [diff] starts with. *)
Lemma dispatch_all_nodup_witness :
  NoDup (@nil nat) /\
  NoDup (snd (dispatch_all false (split_lines (join_nl ["a"; "a"]))
               (split_lines (bs "a"))
               (slice line_eqb (split_lines (join_nl ["a"; "a"]))
                  (split_lines (bs "a"))) ([], []))).
Proof.
  assert (H : NoDup (@nil nat)) by constructor.
  split; [exact H|].
  exact (proj1 (dispatch_all_nodup false _ _ _ [] [] H)).
Defined.

(** *** [sdiff]: arguments and exit status *)

Lemma parse_params_error_iff (opts : list String.string) :
  length opts < 3 <-> Sdiff.parse_params opts = Sdiff.ParseError Sdiff.InsufficientArgs.
Proof.
  destruct opts as [|x [|y [|z rest]]]; cbn; split;
    intros H; try reflexivity; try lia; discriminate.
Qed.

Lemma read_file_contents_output (w : Sdiff.World) (path : String.string)
    (b : Buf) (w' : Sdiff.World) :
  Sdiff.read_file_contents w path = Some (b, w') ->
  Sdiff.stdout_ok w' = Sdiff.stdout_ok w.
Proof.
  unfold Sdiff.read_file_contents, Sdiff.get_file_from_stdin.
  destruct (String.eqb path "-").
  - destruct (Sdiff.stdin_read w (Sdiff.stdin_reads w)); [|discriminate].
    intros H. injection H as _ <-. reflexivity.
  - destruct (Sdiff.fs_read w path); [|discriminate].
    intros H. injection H as _ <-. reflexivity.
Qed.

(** X8: [main] only ever exits with 0 or 2 (any other run panics).  It
    exits with 2 exactly when fewer than two file arguments follow the
    executable name and the usage message can be written to standard
    error; with two file arguments it exits with 0 exactly when both
    files are read and standard output can be written. *)
Theorem main_exit_status_spec :
  forall (w : Sdiff.World) (opts : list String.string),
  (Sdiff.main w opts = Sdiff.Exit 2 <->
   length opts < 3 /\ Sdiff.stderr_ok w = true) /\
  (forall n, Sdiff.main w opts = Sdiff.Exit n -> n = 0 \/ n = 2) /\
  (forall exe f1 f2 rest,
     Sdiff.main w (exe :: f1 :: f2 :: rest) = Sdiff.Exit 0 <->
     (exists b1 w1 b2 w2,
        Sdiff.read_file_contents w f1 = Some (b1, w1) /\
        Sdiff.read_file_contents w1 f2 = Some (b2, w2)) /\
     Sdiff.stdout_ok w = true).
Proof.
  intros w opts. split; [|split].
  - unfold Sdiff.main. rewrite (parse_params_error_iff opts).
    destruct (Sdiff.parse_params opts) as [p | e].
    + split; [|intros [H _]; discriminate H].
      destruct (Sdiff.read_file_contents w (Sdiff.file1 p)) as [[? w1] |];
        [|intros H; discriminate H].
      destruct (Sdiff.read_file_contents w1 (Sdiff.file2 p)) as [[? w2] |];
        [|intros H; discriminate H].
      destruct (Sdiff.stdout_ok w2); intros H; discriminate H.
    + destruct e. destruct (Sdiff.stderr_ok w); split.
      * intros _. split; reflexivity.
      * reflexivity.
      * intros H; discriminate H.
      * intros [_ H]; discriminate H.
  - intros n. unfold Sdiff.main.
    destruct (Sdiff.parse_params opts) as [p | e].
    + destruct (Sdiff.read_file_contents w (Sdiff.file1 p)) as [[? w1] |];
        [|intros H; discriminate H].
      destruct (Sdiff.read_file_contents w1 (Sdiff.file2 p)) as [[? w2] |];
        [|intros H; discriminate H].
      destruct (Sdiff.stdout_ok w2); intros H; [injection H; lia | discriminate H].
    + destruct (Sdiff.stderr_ok w); intros H; [injection H; lia | discriminate H].
  - intros exe f1 f2 rest. unfold Sdiff.main. cbn [Sdiff.parse_params Sdiff.file1 Sdiff.file2].
    split.
    + destruct (Sdiff.read_file_contents w f1) as [[b1 w1] |] eqn:H1;
        [|intros H; discriminate H].
      destruct (Sdiff.read_file_contents w1 f2) as [[b2 w2] |] eqn:H2;
        [|intros H; discriminate H].
      intros H. split; [now exists b1, w1, b2, w2|].
      rewrite <- (read_file_contents_output w f1 b1 w1 H1),
              <- (read_file_contents_output w1 f2 b2 w2 H2).
      destruct (Sdiff.stdout_ok w2); [reflexivity | discriminate H].
    + intros [(b1 & w1 & b2 & w2 & H1 & H2) Ho]. rewrite H1, H2.
      rewrite (read_file_contents_output w1 f2 b2 w2 H2),
              (read_file_contents_output w f1 b1 w1 H1), Ho.
      reflexivity.
Qed.

(** *** Against an empty file *)

Lemma split_lines_nil : split_lines [] = [mkLine 0 []].
Proof. reflexivity. Qed.

Lemma split_lines_length_pos (input : Buf) : 1 <= length (split_lines input).
Proof.
  pose proof (split_lines_first input) as H.
  destruct (split_lines input); [discriminate | cbn; lia].
Qed.

Lemma line_or_placeholder_nil_line (k : nat) :
  line_or_placeholder [mkLine 0 []] k = mkLine k [].
Proof. destruct k as [|k]; [reflexivity|]. unfold line_or_placeholder. now destruct k. Qed.

(** X9: [diff] of an empty left buffer against a buffer whose first line
    is not empty has one row per line of the right buffer, each with an
    empty left column holding the placeholder of index [k]; and
    symmetrically for a non-empty left buffer against an empty right one. *)
Theorem diff_against_empty :
  forall (w : bool) align (A B : Buf),
  valid_script line_eqb (split_lines []) (split_lines B)
    (align (split_lines []) (split_lines B)) ->
  valid_script line_eqb (split_lines A) (split_lines [])
    (align (split_lines A) (split_lines [])) ->
  is_empty (before_newline A) = false ->
  is_empty (before_newline B) = false ->
  diff_with w align [] B =
    Some (concat (map (fun k => row_of w
      (mkDiff (mkLine k []) (line_or_placeholder (split_lines B) k)))
      (seq 0 (length (split_lines B))))) /\
  diff_with w align A [] =
    Some (concat (map (fun k => row_of w
      (mkDiff (line_or_placeholder (split_lines A) k) (mkLine k [])))
      (seq 0 (length (split_lines A))))).
Proof.
  intros w align A B HvB HvA HA HB. split.
  - rewrite (diff_with_positional w align [] B HvB) by (rewrite HB; reflexivity).
    rewrite split_lines_nil. cbn [length].
    pose proof (split_lines_length_pos B).
    replace (Nat.max 1 (length (split_lines B))) with (length (split_lines B)) by lia.
    rewrite map_map. f_equal. f_equal. apply map_ext. intros k.
    unfold pair_at. now rewrite line_or_placeholder_nil_line.
  - rewrite (diff_with_positional w align A [] HvA)
      by (rewrite HA; reflexivity).
    rewrite split_lines_nil. cbn [length].
    pose proof (split_lines_length_pos A).
    replace (Nat.max (length (split_lines A)) 1) with (length (split_lines A)) by lia.
    rewrite map_map. f_equal. f_equal. apply map_ext. intros k.
    unfold pair_at. now rewrite line_or_placeholder_nil_line.
Qed.

(** X9 with "a\nb" on one side and the empty buffer on the other, with the
    crate's edit scripts. *)
Lemma diff_against_empty_witness :
  let A := join_nl ["a"; "b"] in
  valid_script line_eqb (split_lines []) (split_lines A)
    (slice line_eqb (split_lines []) (split_lines A)) /\
  valid_script line_eqb (split_lines A) (split_lines [])
    (slice line_eqb (split_lines A) (split_lines [])) /\
  diff_with true (slice line_eqb) [] A =
    Some (concat (map (fun k => row_of true
      (mkDiff (mkLine k []) (line_or_placeholder (split_lines A) k)))
      (seq 0 (length (split_lines A))))).
Proof.
  intros A.
  assert (H1 : valid_script line_eqb (split_lines []) (split_lines A)
                 (slice line_eqb (split_lines []) (split_lines A))).
  { unfold valid_script. vm_compute. split; [reflexivity | split; reflexivity]. }
  assert (H2 : valid_script line_eqb (split_lines A) (split_lines [])
                 (slice line_eqb (split_lines A) (split_lines []))).
  { unfold valid_script. vm_compute. split; [reflexivity | split; reflexivity]. }
  split; [exact H1|]. split; [exact H2|].
  exact (proj1 (diff_against_empty true (slice line_eqb) A A H1 H2 eq_refl eq_refl)).
Defined.

(** *** What [diff] never does *)

(** X10: [diff] never panics: [split_lines] always yields a line of index
    0, so neither [left_lines[0]] nor [right_lines[0]] is out of bounds,
    whatever the buffers and whatever edit script the collaborator
    returns. *)
Theorem diff_never_panics :
  forall (w : bool) align (A B : Buf), diff_with w align A B <> None.
Proof.
  intros w align A B. rewrite diff_with_rows.
  destruct (_ && _); discriminate.
Qed.

(** *** Line endings *)

Lemma to_crlf_app (a b : Buf) : to_crlf (a ++ b) = to_crlf a ++ to_crlf b.
Proof. induction a as [|c a IH]; [reflexivity|]. cbn. rewrite IH, app_assoc. reflexivity. Qed.

Lemma to_crlf_no_nl (b : Buf) : count_nl b = 0 -> to_crlf b = b.
Proof.
  induction b as [|c b IH]; intros H; [reflexivity|].
  unfold count_nl in H. cbn [filter] in H.
  destruct (Byte.eqb b_nl c) eqn:E; [discriminate|].
  cbn. destruct (Byte.eqb c b_nl) eqn:E'.
  - apply Byte.byte_dec_bl in E'. subst c. discriminate.
  - cbn. f_equal. now apply IH.
Qed.

Lemma to_crlf_concat (bs : list Buf) : to_crlf (concat bs) = concat (map to_crlf bs).
Proof. induction bs as [|b bs IH]; [reflexivity|]. cbn. now rewrite to_crlf_app, IH. Qed.

Lemma row_of_crlf (d : Diff) :
  count_nl (content (left_ln d)) = 0 -> count_nl (content (right_ln d)) = 0 ->
  row_of true d = to_crlf (row_of false d).
Proof.
  intros Hl Hr. unfold row_of, push_output, limited_string.
  rewrite !to_crlf_app.
  rewrite (to_crlf_no_nl (firstn 61 (content (left_ln d))))
    by (apply count_nl_firstn; exact Hl).
  rewrite (to_crlf_no_nl (firstn 61 (content (right_ln d))))
    by (apply count_nl_firstn; exact Hr).
  rewrite (to_crlf_no_nl (repeat _ _)) by apply count_nl_repeat_space.
  assert (Hs : count_nl (row_symbol d) = 0).
  { unfold row_symbol. destruct (_ && _); [reflexivity|].
    destruct (_ && _); [reflexivity|]. destruct (bytes_eqb _ _); reflexivity. }
  rewrite (to_crlf_no_nl (row_symbol d)) by exact Hs. reflexivity.
Qed.

(** X11: for every valid edit script, the Windows output of [diff] is its
    Unix output with each ["\n"] written as ["\r\n"]: line endings are the
    only bytes [target_windows] changes, and no line content carries a
    ["\n"]. *)
Theorem diff_windows_is_crlf :
  forall align (A B : Buf),
  valid_script line_eqb (split_lines A) (split_lines B)
    (align (split_lines A) (split_lines B)) ->
  diff_with true align A B = option_map to_crlf (diff_with false align A B).
Proof.
  intros align A B Hv.
  destruct (is_empty (before_newline A) && is_empty (before_newline B)) eqn:E.
  - rewrite !diff_with_rows, E. reflexivity.
  - rewrite (diff_with_positional true align A B Hv E),
            (diff_with_positional false align A B Hv E).
    cbn [option_map]. f_equal.
    rewrite to_crlf_concat, !map_map. f_equal.
    apply map_ext. intros k. apply row_of_crlf; apply count_nl_line_or_placeholder.
Qed.

(** X11 on the repository's [test_mixed_changes] buffers, with the crate's
    edit script. *)
Lemma diff_windows_is_crlf_witness :
  let A := join_nl ["a"; "b"; "c"] in
  let B := join_nl ["a"; "modified"; "new"] in
  valid_script line_eqb (split_lines A) (split_lines B)
    (slice line_eqb (split_lines A) (split_lines B)) /\
  diff_with true (slice line_eqb) A B
  = option_map to_crlf (diff_with false (slice line_eqb) A B).
Proof.
  intros A B.
  assert (Hv : valid_script line_eqb (split_lines A) (split_lines B)
                 (slice line_eqb (split_lines A) (split_lines B))).
  { unfold valid_script. vm_compute. split; [reflexivity | split; reflexivity]. }
  split; [exact Hv|].
  exact (diff_windows_is_crlf (slice line_eqb) A B Hv).
Defined.

(** *** The dispatched indices of a run *)

Lemma row_index_pair_at (A B : Buf) (k : nat) :
  row_index (pair_at (split_lines A) (split_lines B) k) = k.
Proof.
  unfold row_index, pair_at, line_or_placeholder. cbn [left_ln].
  destruct (nth_error (split_lines A) k) as [l|] eqn:E; [|reflexivity].
  exact (split_lines_nth A k l E).
Qed.

(** X14: for every valid edit script, the loop of [diff] dispatches each
    index below the larger line count exactly once and in increasing
    order: the final [already_dispatched] vector is [0, 1, ..., n-1]. *)
Theorem diff_dispatches_all_indices :
  forall (w : bool) align (A B : Buf),
  valid_script line_eqb (split_lines A) (split_lines B)
    (align (split_lines A) (split_lines B)) ->
  snd (dispatch_all w (split_lines A) (split_lines B)
         (align (split_lines A) (split_lines B)) ([], []))
  = seq 0 (Nat.max (length (split_lines A)) (length (split_lines B))).
Proof.
  intros w align A B [Hl [Hr Hb]].
  rewrite dispatch_all_eq. cbn [snd app].
  pose proof (first_occurrences_positional (split_lines A) (split_lines B)
                (split_lines_nth A) (split_lines_nth B)
                (align (split_lines A) (split_lines B)) 0 0 Hl Hr Hb
                (Nat.le_0_l _) (Nat.le_0_l _)) as H.
  cbn [Nat.max seq] in H. rewrite Nat.sub_0_r in H. rewrite H, map_map.
  erewrite map_ext; [apply map_id|]. intros k. apply row_index_pair_at.
Qed.

(** X14 on "a\na" against "a" (the repository's [test_duplicate_lines]
    shape), with the crate's edit script. *)
Lemma diff_dispatches_all_indices_witness :
  let A := join_nl ["a"; "a"] in
  let B := bs "a" in
  valid_script line_eqb (split_lines A) (split_lines B)
    (slice line_eqb (split_lines A) (split_lines B)) /\
  snd (dispatch_all false (split_lines A) (split_lines B)
         (slice line_eqb (split_lines A) (split_lines B)) ([], [])) = [0; 1].
Proof.
  intros A B.
  assert (Hv : valid_script line_eqb (split_lines A) (split_lines B)
                 (slice line_eqb (split_lines A) (split_lines B))).
  { unfold valid_script. vm_compute. split; [reflexivity | split; reflexivity]. }
  split; [exact Hv|].
  exact (diff_dispatches_all_indices false (slice line_eqb) A B Hv).
Defined.

(** *** Swapping the two files *)

Lemma bytes_eqb_sym (a b : Buf) : bytes_eqb a b = bytes_eqb b a.
Proof.
  destruct (bytes_eqb a b) eqn:E; symmetry.
  - apply bytes_eqb_eq in E. subst. apply bytes_eqb_refl.
  - apply not_true_iff_false. intros H. apply bytes_eqb_eq in H. subst.
    rewrite bytes_eqb_refl in E. discriminate.
Qed.

(** X15: exchanging the two sides of a row exchanges [<] and [>] and keeps
    [|] and the blank symbol. *)
Theorem row_symbol_swap :
  forall d : Diff, row_symbol (swap_diff d) = mirror_symbol (row_symbol d).
Proof.
  intros [[i cl] [j cr]]. unfold row_symbol, swap_diff. cbn [left_ln right_ln content].
  destruct cl as [|x cl], cr as [|y cr]; cbn [is_empty negb andb]; try reflexivity.
  rewrite (bytes_eqb_sym (y :: cr)).
  destruct (bytes_eqb (x :: cl) (y :: cr)); reflexivity.
Qed.

(** X16: for every valid edit script, [diff] of the second file against
    the first has, position by position, the rows of [diff] of the first
    against the second with their sides exchanged. *)
Theorem diff_swap :
  forall (w : bool) align (A B : Buf),
  valid_script line_eqb (split_lines B) (split_lines A)
    (align (split_lines B) (split_lines A)) ->
  is_empty (before_newline A) && is_empty (before_newline B) = false ->
  diff_with w align B A =
    Some (concat (map (fun k => row_of w
      (swap_diff (pair_at (split_lines A) (split_lines B) k)))
      (seq 0 (Nat.max (length (split_lines A)) (length (split_lines B)))))).
Proof.
  intros w align A B Hv Hne.
  rewrite (diff_with_positional w align B A Hv)
    by (rewrite andb_comm; exact Hne).
  rewrite map_map, Nat.max_comm. reflexivity.
Qed.

(** X16 on the repository's [test_mixed_changes] buffers, swapped, with
    the crate's edit script. *)
Lemma diff_swap_witness :
  let A := join_nl ["a"; "b"; "c"] in
  let B := join_nl ["a"; "modified"; "new"] in
  valid_script line_eqb (split_lines B) (split_lines A)
    (slice line_eqb (split_lines B) (split_lines A)) /\
  is_empty (before_newline A) && is_empty (before_newline B) = false /\
  diff_with false (slice line_eqb) B A =
    Some (concat (map (fun k => row_of false
      (swap_diff (pair_at (split_lines A) (split_lines B) k)))
      (seq 0 (Nat.max (length (split_lines A)) (length (split_lines B)))))).
Proof.
  intros A B.
  assert (Hv : valid_script line_eqb (split_lines B) (split_lines A)
                 (slice line_eqb (split_lines B) (split_lines A))).
  { unfold valid_script. vm_compute. split; [reflexivity | split; reflexivity]. }
  assert (Hn : is_empty (before_newline A) && is_empty (before_newline B) = false)
    by reflexivity.
  split; [exact Hv|]. split; [exact Hn|].
  exact (diff_swap false (slice line_eqb) A B Hv Hn).
Defined.
